(** * The RouterOS reply receiver ([dist/connector/Receiver.js])

    A shallow embedding of the [Receiver] class: the length-prefix decoder
    [decodeLength], the chunk loop of [processRawData], the sentence pump
    [processSentence] and the tag dispatcher [sendTagData], followed by the
    properties of the streaming decoder that were checked against it. *)

From Stdlib Require Import ZArith List Lia Bool String Ascii.
From stdpp Require Import base option list gmap.
Import ListNotations.

Local Open Scope Z_scope.

(** ** JavaScript values

    The numbers the receiver computes with are byte values, buffer lengths
    and the results of [&], [<<] and [+] on them.  Reading a [Buffer] past its
    end gives [undefined], and arithmetic on [undefined] gives [NaN], so both
    are values of the model. *)

Inductive jsval : Type :=
| JNum (z : Z)
| JNaN
| JUndefined.

Module JS.

(** [ToInt32] of ECMAScript: [NaN] and [undefined] become [0], a number is
    wrapped into the signed 32-bit range. *)
Definition ToInt32 (v : jsval) : Z :=
  match v with
  | JNum z => (z + 2 ^ 31) mod 2 ^ 32 - 2 ^ 31
  | JNaN | JUndefined => 0
  end.

(** [a & b] *)
Definition and (a b : jsval) : jsval :=
  JNum (Z.land (ToInt32 a) (ToInt32 b)).

(** [a << k], for a literal shift count [k] *)
Definition shl (a : jsval) (k : Z) : jsval :=
  JNum (ToInt32 (JNum (Z.shiftl (ToInt32 a) k))).

(** [a + b] on numbers; [undefined] is converted to [NaN]. *)
Definition add (a b : jsval) : jsval :=
  match a, b with
  | JNum x, JNum y => JNum (x + y)
  | _, _ => JNaN
  end.

(** [a - b] *)
Definition sub (a b : jsval) : jsval :=
  match a, b with
  | JNum x, JNum y => JNum (x - y)
  | _, _ => JNaN
  end.

(** [a === b] *)
Definition seq (a b : jsval) : bool :=
  match a, b with
  | JNum x, JNum y => x =? y
  | JUndefined, JUndefined => true
  | _, _ => false
  end.

(** [a > b] and [a <= b]: every comparison with [NaN] is false. *)
Definition gt (a b : jsval) : bool :=
  match a, b with
  | JNum x, JNum y => y <? x
  | _, _ => false
  end.

Definition le (a b : jsval) : bool :=
  match a, b with
  | JNum x, JNum y => x <=? y
  | _, _ => false
  end.

(** Truthiness of a number: [0], [NaN] and [undefined] are falsy. *)
Definition truthy (v : jsval) : bool :=
  match v with
  | JNum z => negb (z =? 0)
  | JNaN | JUndefined => false
  end.

End JS.

(** ** Buffers and strings

    A [Buffer] is the list of its bytes ([0 <= b < 256]); a JavaScript string
    is the list of its UTF-16 code units. *)

Abbreviation buffer := (list Z).
Abbreviation jsstring := (list Z).

Definition is_byte (b : Z) : Prop := 0 <= b < 256.

(** [data[i]] *)
Definition index (data : buffer) (i : nat) : jsval :=
  match data !! i with
  | Some b => JNum b
  | None => JUndefined
  end.

(** [data.length] *)
Definition buf_length (data : buffer) : jsval := JNum (Z.of_nat (length data)).

(** [data.slice(start)]: a [NaN] start counts as [0], a negative one counts
    from the end of the buffer. *)
Definition slice_from (start : jsval) (data : buffer) : buffer :=
  match start with
  | JNum d =>
      if d <? 0 then drop (Z.to_nat (Z.of_nat (length data) + d)) data
      else if Z.of_nat (length data) <=? d then []
      else drop (Z.to_nat d) data
  | JNaN | JUndefined => data
  end.

(** [data.slice(0, stop)] *)
Definition slice_to (stop : jsval) (data : buffer) : buffer :=
  match stop with
  | JNum d =>
      if d <? 0 then take (Z.to_nat (Z.of_nat (length data) + d)) data
      else if Z.of_nat (length data) <=? d then data
      else take (Z.to_nat d) data
  | JNaN => []
  | JUndefined => data
  end.

(** [const nullBuffer = Buffer.from([0x00])] *)
Definition nullBuffer : buffer := [0].

(** [data.equals(other)] *)
Definition buf_equals (data other : buffer) : bool := bool_decide (data = other).

(** A string literal of the source, as code units. *)
Fixpoint str (s : string) : jsstring :=
  match s with
  | EmptyString => []
  | String c s' => Z.of_nat (nat_of_ascii c) :: str s'
  end.

(** [s === t] on strings *)
Definition str_eq (s t : jsstring) : bool := bool_decide (s = t).

(** [/^prefix/.test(s)] for a literal prefix *)
Fixpoint starts_with (prefix s : jsstring) : bool :=
  match prefix, s with
  | [], _ => true
  | _ :: _, [] => false
  | p :: prefix', c :: s' => (p =? c) && starts_with prefix' s'
  end.

(** [s.substring(n)] *)
Definition substring (n : nat) (s : jsstring) : jsstring := drop n s.

(** The table of the [win1252] codec of iconv-lite (an external dependency):
    bytes below [0x80] and from [0xA0] on decode to the code point of the
    same number, the block [0x80..0x9F] to the Windows-1252 characters, and
    the five unassigned bytes to U+FFFD. *)
Definition win1252 (b : Z) : Z :=
  if (b <? 128) || (160 <=? b) then b
  else
    nth (Z.to_nat (b - 128))
      [ 0x20AC; 0xFFFD; 0x201A; 0x0192; 0x201E; 0x2026; 0x2020; 0x2021;
        0x02C6; 0x2030; 0x0160; 0x2039; 0x0152; 0xFFFD; 0x017D; 0xFFFD;
        0xFFFD; 0x2018; 0x2019; 0x201C; 0x201D; 0x2022; 0x2013; 0x2014;
        0x02DC; 0x2122; 0x0161; 0x203A; 0x0153; 0xFFFD; 0x017E; 0x0178 ]
      0xFFFD.

(** [iconv.decode(data, "win1252")] *)
Definition iconv_decode (data : buffer) : jsstring := map win1252 data.

(** ** The receiver *)

(** [ISentence] *)
Record ISentence : Type := mkSentence {
  sentence : jsstring;
  hadMore : bool;
}.

(** What a call of a consumer callback does, as far as the receiver can
    tell: it returns, or it throws.  A callback is taken to leave the
    receiver alone: it does not call [read], [stop] or [processRawData]. *)
Inductive outcome : Type := Returns | Throws.

(** [IReadCallback] *)
Record IReadCallback : Type := mkReadCallback {
  name : jsstring;
  callback : list jsstring -> outcome;
}.

(** What the receiver does to the outside world: a call of a tag's callback
    with a packet, an event emitted on the socket, and the two messages of
    the [error] log of [sendTagData].  (The [info] messages are left out.) *)
Inductive effect : Type :=
| Called (tag : jsstring) (packet : list jsstring)
| Emitted (event : jsstring)
| CallbackError (tag : jsstring)
| UnregisteredTag (tag : jsstring).

(** The fields of the class.  [currentTag] and [lengthDescriptorSegment] are
    [null] or a value; [trace] stands for the socket, the callbacks and the
    error log: the effects so far, oldest first. *)
Record Receiver : Type := mkReceiver {
  tags : gmap jsstring IReadCallback;
  dataLength : jsval;
  sentencePipe : list ISentence;
  processingSentencePipe : bool;
  currentLine : jsstring;
  currentReply : jsstring;
  currentTag : option jsstring;
  currentPacket : list jsstring;
  lengthDescriptorSegment : option buffer;
  trace : list effect;
}.

(** [new Receiver(socket)] *)
Definition new_Receiver : Receiver :=
  {| tags := empty; dataLength := JNum 0; sentencePipe := [];
     processingSentencePipe := false; currentLine := []; currentReply := [];
     currentTag := None; currentPacket := [];
     lengthDescriptorSegment := None; trace := [] |}.

(** Assignments to one field. *)
Definition set_tags (v : gmap jsstring IReadCallback) (r : Receiver) : Receiver :=
  mkReceiver v (dataLength r) (sentencePipe r) (processingSentencePipe r)
    (currentLine r) (currentReply r) (currentTag r) (currentPacket r)
    (lengthDescriptorSegment r) (trace r).

Definition set_dataLength (v : jsval) (r : Receiver) : Receiver :=
  mkReceiver (tags r) v (sentencePipe r) (processingSentencePipe r)
    (currentLine r) (currentReply r) (currentTag r) (currentPacket r)
    (lengthDescriptorSegment r) (trace r).

Definition set_sentencePipe (v : list ISentence) (r : Receiver) : Receiver :=
  mkReceiver (tags r) (dataLength r) v (processingSentencePipe r)
    (currentLine r) (currentReply r) (currentTag r) (currentPacket r)
    (lengthDescriptorSegment r) (trace r).

Definition set_processingSentencePipe (v : bool) (r : Receiver) : Receiver :=
  mkReceiver (tags r) (dataLength r) (sentencePipe r) v
    (currentLine r) (currentReply r) (currentTag r) (currentPacket r)
    (lengthDescriptorSegment r) (trace r).

Definition set_currentLine (v : jsstring) (r : Receiver) : Receiver :=
  mkReceiver (tags r) (dataLength r) (sentencePipe r) (processingSentencePipe r)
    v (currentReply r) (currentTag r) (currentPacket r)
    (lengthDescriptorSegment r) (trace r).

Definition set_currentReply (v : jsstring) (r : Receiver) : Receiver :=
  mkReceiver (tags r) (dataLength r) (sentencePipe r) (processingSentencePipe r)
    (currentLine r) v (currentTag r) (currentPacket r)
    (lengthDescriptorSegment r) (trace r).

Definition set_currentTag (v : option jsstring) (r : Receiver) : Receiver :=
  mkReceiver (tags r) (dataLength r) (sentencePipe r) (processingSentencePipe r)
    (currentLine r) (currentReply r) v (currentPacket r)
    (lengthDescriptorSegment r) (trace r).

Definition set_currentPacket (v : list jsstring) (r : Receiver) : Receiver :=
  mkReceiver (tags r) (dataLength r) (sentencePipe r) (processingSentencePipe r)
    (currentLine r) (currentReply r) (currentTag r) v
    (lengthDescriptorSegment r) (trace r).

Definition set_lengthDescriptorSegment (v : option buffer) (r : Receiver) : Receiver :=
  mkReceiver (tags r) (dataLength r) (sentencePipe r) (processingSentencePipe r)
    (currentLine r) (currentReply r) (currentTag r) (currentPacket r)
    v (trace r).

(** One more effect on the outside world. *)
Definition emit (e : effect) (r : Receiver) : Receiver :=
  mkReceiver (tags r) (dataLength r) (sentencePipe r) (processingSentencePipe r)
    (currentLine r) (currentReply r) (currentTag r) (currentPacket r)
    (lengthDescriptorSegment r) (trace r ++ [e]).

(** ** Completions

    A method either completes normally or throws; the fields assigned before
    the throw keep their values. *)
Inductive completion (A : Type) : Type :=
| Normal (a : A)
| Thrown (r : Receiver).

Arguments Normal {A} a.
Arguments Thrown {A} r.

Definition bind {A B : Type} (c : completion A) (k : A -> completion B) : completion B :=
  match c with
  | Normal a => k a
  | Thrown r => Thrown r
  end.

Notation "x <- c ;; k" := (bind c (fun x => k))
  (at level 100, c at next level, right associativity).

(** [try { body } catch (err) { handler }] *)
Definition try_catch (body : completion Receiver)
    (handler : Receiver -> completion Receiver) : completion Receiver :=
  match body with
  | Normal r => Normal r
  | Thrown r => handler r
  end.

(** [tag.callback(packet)] *)
Definition invoke (tag : IReadCallback) (key : jsstring) (packet : list jsstring)
    (r : Receiver) : completion Receiver :=
  match callback tag packet with
  | Returns => Normal (emit (Called key packet) r)
  | Throws => Thrown (emit (Called key packet) r)
  end.

(** ** The methods *)

(** [read(tag, callback)] *)
Definition read (tag : jsstring) (cb : list jsstring -> outcome) (r : Receiver) : Receiver :=
  set_tags (<[tag := mkReadCallback tag cb]> (tags r)) r.

(** [stop(tag)] *)
Definition stop (tag : jsstring) (r : Receiver) : Receiver :=
  set_tags (delete tag (tags r)) r.

(** [decodeLength(data)]: [idx] is advanced by every [data[idx++]], so the
    indices read are [0], [1], ... and the [idx] returned is their number. *)
Definition decodeLength (data : buffer) : nat * jsval :=
  let b := index data 0 in
  if JS.truthy (JS.and b (JNum 128)) then
    if JS.seq (JS.and b (JNum 192)) (JNum 128) then
      let len := JS.add (JS.shl (JS.and b (JNum 63)) 8) (index data 1) in
      (2%nat, len)
    else if JS.seq (JS.and b (JNum 224)) (JNum 192) then
      let len := JS.add (JS.shl (JS.and b (JNum 31)) 8) (index data 1) in
      let len := JS.add (JS.shl len 8) (index data 2) in
      (3%nat, len)
    else if JS.seq (JS.and b (JNum 240)) (JNum 224) then
      let len := JS.add (JS.shl (JS.and b (JNum 15)) 8) (index data 1) in
      let len := JS.add (JS.shl len 8) (index data 2) in
      let len := JS.add (JS.shl len 8) (index data 3) in
      (4%nat, len)
    else
      let len := index data 1 in
      let len := JS.add (JS.shl len 8) (index data 2) in
      let len := JS.add (JS.shl len 8) (index data 3) in
      let len := JS.add (JS.shl len 8) (index data 4) in
      (5%nat, len)
  else
    (1%nat, b).

(** [cleanUp()] *)
Definition cleanUp (r : Receiver) : Receiver :=
  set_currentReply [] (set_currentTag None (set_currentPacket [] r)).

(** [sendTagData(currentTag)] *)
Definition sendTagData (tag : jsstring) (r : Receiver) : completion Receiver :=
  r <- match tags r !! tag with
       | Some t =>
           try_catch (invoke t tag (currentPacket r) r)
             (fun r => Normal (emit (CallbackError tag) r))
       | None => Normal (emit (UnregisteredTag tag) r)
       end ;;
  Normal (cleanUp r).

(** [if (this.currentTag)]: [null] and the empty string are falsy. *)
Definition open_tag (r : Receiver) : option jsstring :=
  match currentTag r with
  | Some (c :: t) => Some (c :: t)
  | Some [] | None => None
  end.

(** [if (this.currentTag) this.sendTagData(this.currentTag)] *)
Definition flush_open_tag (r : Receiver) : completion Receiver :=
  match open_tag r with
  | Some t => sendTagData t r
  | None => Normal r
  end.

(** [this.currentPacket.push(word)] *)
Definition push_packet (word : jsstring) (r : Receiver) : Receiver :=
  set_currentPacket (currentPacket r ++ [word]) r.

(** Lines 127-141: a tag line opens the tag, a reply word flushes the open
    tag and starts a packet, any other word joins the packet. *)
Definition classify (word : jsstring) (r : Receiver) : completion Receiver :=
  if starts_with (str ".tag=") word then
    Normal (set_currentTag (Some (substring 5 word)) r)
  else if starts_with (str "!") word then
    r <- flush_open_tag r ;;
    Normal (set_currentReply word (push_packet word r))
  else
    Normal (push_packet word r).

(** The closure [process] of [processSentence].  Its argument is the queue
    it finds in [this.sentencePipe]: [shift()] takes the head (an object, so
    the test [!line] never holds), and nothing that runs before the recursive
    call touches the rest. *)
Fixpoint process (pipe : list ISentence) (r : Receiver) : completion Receiver :=
  match pipe with
  | [] => Normal (set_processingSentencePipe false r)
  | line :: rest =>
      let r := set_sentencePipe rest r in
      if str_eq (sentence line) (str "!empty") then
        r <- match open_tag r with
             | Some t => sendTagData t (push_packet (str "!done") r)
             | None => Normal r
             end ;;
        Normal (set_processingSentencePipe false r)
      else if negb (hadMore line) && str_eq (currentReply r) (str "!fatal") then
        Normal (set_processingSentencePipe false (emit (Emitted (str "fatal")) r))
      else
        r <- classify (sentence line) r ;;
        if (Nat.eqb (length rest) 0) && JS.seq (dataLength r) (JNum 0) then
          r <- (if negb (hadMore line) then flush_open_tag r else Normal r) ;;
          Normal (set_processingSentencePipe false r)
        else
          process rest r
  end.

(** [processSentence()] *)
Definition processSentence (r : Receiver) : completion Receiver :=
  if processingSentencePipe r then Normal r
  else process (sentencePipe r) (set_processingSentencePipe true r).

(** [this.sentencePipe.push(s); this.processSentence()] *)
Definition push_sentence (s : ISentence) (r : Receiver) : completion Receiver :=
  processSentence (set_sentencePipe (sentencePipe r ++ [s]) r).

(** How one turn of the [while] loop ends: with the rest of [data], or by
    [break]. *)
Inductive ctl : Type :=
| Continue (data : buffer)
| Break.

(** Lines 66-69 and 81-84: a length of exactly [1] followed by nothing but a
    null byte is taken as a terminator. *)
Definition null_terminator (r : Receiver) (data : buffer) : Receiver * buffer :=
  if JS.seq (dataLength r) (JNum 1) && buf_equals data nullBuffer then
    (set_dataLength (JNum 0) r, slice_from (JNum 1) data)
  else (r, data).

(** The body of the [while] loop of [processRawData]. *)
Definition turn (r : Receiver) (data : buffer) : completion (Receiver * ctl) :=
  if JS.gt (dataLength r) (JNum 0) then
    if JS.le (buf_length data) (dataLength r) then
      let r := set_dataLength (JS.sub (dataLength r) (buf_length data)) r in
      let r := set_currentLine (currentLine r ++ iconv_decode data) r in
      if JS.seq (dataLength r) (JNum 0) then
        r <- push_sentence
               {| sentence := currentLine r;
                  hadMore := negb (JS.seq (buf_length data) (dataLength r)) |} r ;;
        Normal (set_currentLine [] r, Break)
      else Normal (r, Break)
    else
      let tmpBuffer := slice_to (dataLength r) data in
      let tmpStr := iconv_decode tmpBuffer in
      let r := set_currentLine (currentLine r ++ tmpStr) r in
      let line := currentLine r in
      let r := set_currentLine [] r in
      let data := slice_from (dataLength r) data in
      let '(descriptor_length, len) := decodeLength data in
      let r := if (length data <? descriptor_length)%nat
               then set_lengthDescriptorSegment (Some data) r else r in
      let r := set_dataLength len r in
      let data := drop descriptor_length data in
      let '(r, data) := null_terminator r data in
      r <- push_sentence
             {| sentence := line; hadMore := (0 <? length data)%nat |} r ;;
      Normal (r, Continue data)
  else
    let '(descriptor_length, len) := decodeLength data in
    let r := set_dataLength len r in
    let data := drop descriptor_length data in
    let '(r, data) := null_terminator r data in
    Normal (r, Continue data).

(** [while (data.length > 0) { ... }].  Every turn that continues has
    consumed a byte, so [length data] turns are enough ([loop_fuel]). *)
Fixpoint loop (fuel : nat) (r : Receiver) (data : buffer) : completion Receiver :=
  match fuel with
  | O => Normal r
  | S fuel' =>
      if (0 <? length data)%nat then
        rc <- turn r data ;;
        match snd rc with
        | Continue data' => loop fuel' (fst rc) data'
        | Break => Normal (fst rc)
        end
      else Normal r
  end.

(** [processRawData(data)] *)
Definition processRawData (data : buffer) (r : Receiver) : completion Receiver :=
  let '(data, r) :=
    match lengthDescriptorSegment r with
    | Some segment => (segment ++ data, set_lengthDescriptorSegment None r)
    | None => (data, r)
    end in
  loop (length data) r data.

(** Chunks delivered one after the other. *)
Fixpoint feed (chunks : list buffer) (r : Receiver) : completion Receiver :=
  match chunks with
  | [] => Normal r
  | chunk :: chunks' => r' <- processRawData chunk r ;; feed chunks' r'
  end.

(** The callback calls of a trace, as (tag, packet) pairs. *)
Definition dispatched (t : list effect) : list (jsstring * list jsstring) :=
  omap (fun e => match e with Called tag p => Some (tag, p) | _ => None end) t.

(** The events emitted on the socket in a trace. *)
Definition emitted (t : list effect) : list jsstring :=
  omap (fun e => match e with Emitted ev => Some ev | _ => None end) t.

(** ** The length codec of the specification *)

(** The width of a descriptor, as its first byte announces it. *)
Definition descriptor_width (b : Z) : nat :=
  if b <? 0x80 then 1
  else if b <? 0xC0 then 2
  else if b <? 0xE0 then 3
  else if b <? 0xF0 then 4
  else 5.

(** The largest length plus one that the class of width [w] can hold. *)
Definition class_bound (w : nat) : Z :=
  match w with
  | 1%nat => 2 ^ 7
  | 2%nat => 2 ^ 14
  | 3%nat => 2 ^ 21
  | 4%nat => 2 ^ 28
  | 5%nat => 2 ^ 32
  | _ => 0
  end.

(** Modelled from the spec: the encoder of the length codec, which is not in
    [Receiver.js].  [encodeLength w n] is the descriptor of width [w] for the
    length [n], the inverse of the five formulas of the data model: the class
    bits and the high bits of [n] in the first byte, then the other bytes of
    [n], most significant first; the first byte of the 5-byte class carries no
    bits of [n]. *)
Definition encodeLength (w : nat) (n : Z) : buffer :=
  match w with
  | 1%nat => [n]
  | 2%nat => [Z.lor 0x80 (Z.shiftr n 8); Z.land n 0xFF]
  | 3%nat => [Z.lor 0xC0 (Z.shiftr n 16); Z.land (Z.shiftr n 8) 0xFF; Z.land n 0xFF]
  | 4%nat => [Z.lor 0xE0 (Z.shiftr n 24); Z.land (Z.shiftr n 16) 0xFF;
              Z.land (Z.shiftr n 8) 0xFF; Z.land n 0xFF]
  | _ => [0xF0; Z.land (Z.shiftr n 24) 0xFF; Z.land (Z.shiftr n 16) 0xFF;
          Z.land (Z.shiftr n 8) 0xFF; Z.land n 0xFF]
  end.

(** ** The vocabulary of the properties *)

(** The masks of [decodeLength] on a byte. *)
Definition masks_ok (b : Z) : bool :=
  (Z.land b 128 =? 128 * (b / 128)) && (Z.land b 192 =? 64 * (b / 64))
  && (Z.land b 224 =? 32 * (b / 32)) && (Z.land b 240 =? 16 * (b / 16))
  && (Z.land b 63 =? b mod 64) && (Z.land b 31 =? b mod 32)
  && (Z.land b 15 =? b mod 16).

(** Decides the closed comparisons that the class tests leave behind. *)
Ltac class_tests :=
  repeat match goal with
  | |- context [?a * ?b =? ?c] =>
      let v := eval vm_compute in (a * b =? c) in
      match v with
      | true => change (a * b =? c) with true
      | false => change (a * b =? c) with false
      end
  end;
  cbn [JS.truthy JS.seq negb].

(** Setting the class bits of a first byte adds them. *)
Definition class_bits_ok (h : Z) : bool :=
  implb (h <? 64) (Z.lor 128 h =? 128 + h)
  && implb (h <? 32) (Z.lor 192 h =? 192 + h)
  && implb (h <? 16) (Z.lor 224 h =? 224 + h).

(** The effects of one [sendTagData(tag)]: the call, and the message of the
    error log if the callback throws or if there is no callback. *)
Definition flush_effects (tag : jsstring) (r : Receiver) : list effect :=
  match tags r !! tag with
  | Some t =>
      Called tag (currentPacket r)
      :: match callback t (currentPacket r) with
         | Returns => []
         | Throws => [CallbackError tag]
         end
  | None => [UnregisteredTag tag]
  end.

Definition emit_all (es : list effect) (r : Receiver) : Receiver :=
  fold_left (fun r e => emit e r) es r.

Arguments str : simpl never.

(** What the classification of a sentence never touches: the registry, the
    framing state, the queue and the guard; the trace only grows, and not by
    events on the socket. *)
Definition kept (r r' : Receiver) : Prop :=
  tags r' = tags r
  /\ dataLength r' = dataLength r
  /\ sentencePipe r' = sentencePipe r
  /\ processingSentencePipe r' = processingSentencePipe r
  /\ currentLine r' = currentLine r
  /\ lengthDescriptorSegment r' = lengthDescriptorSegment r
  /\ exists es, trace r' = trace r ++ es /\ emitted es = [].

(** Proves [kept] for an assignment to a field outside its list. *)
Ltac kept_now :=
  unfold kept; cbn; repeat split; try reflexivity;
  try (exists []; rewrite app_nil_r; split; reflexivity).

(** The four ways the drain of [process] stops: the queue is empty, or the
    sentence just taken was [!empty], or it was taken with no bytes pending
    while the reply classification was [!fatal]. *)
Definition stop_reason (done : list ISentence) (r' : Receiver) : Prop :=
  sentencePipe r' = []
  \/ exists done' line,
       done = done' ++ [line]
       /\ (sentence line = str "!empty"
           \/ (hadMore line = false
               /\ exists t, trace r' = t ++ [Emitted (str "fatal")])).

(** The state in which the descriptor after a completed word is decoded. *)
Definition after_word (r : Receiver) (rest : buffer) : Receiver :=
  set_dataLength (snd (decodeLength rest))
    (if (length rest <? fst (decodeLength rest))%nat
     then set_lengthDescriptorSegment (Some rest) (set_currentLine [] r)
     else set_currentLine [] r).



(** Between two calls the queue is empty and no drain is in progress. *)
Definition idle (r : Receiver) : Prop :=
  sentencePipe r = [] /\ processingSentencePipe r = false.




(** The bytes the loop of [processRawData] runs on: the chunk, after the
    descriptor bytes kept from the chunk before. *)
Definition pending (r : Receiver) (chunk : buffer) : buffer :=
  match lengthDescriptorSegment r with
  | Some segment => segment ++ chunk
  | None => chunk
  end.

Definition hush (t : IReadCallback) : IReadCallback :=
  {| name := name t; callback := fun _ => Returns |}.

Definition calm_effect (e : effect) : option effect :=
  match e with
  | CallbackError _ => None
  | _ => Some e
  end.

Definition calm (r : Receiver) : Receiver :=
  mkReceiver (hush <$> tags r) (dataLength r) (sentencePipe r)
    (processingSentencePipe r) (currentLine r) (currentReply r) (currentTag r)
    (currentPacket r) (lengthDescriptorSegment r) (omap calm_effect (trace r)).

Definition calm_c (c : completion Receiver) : completion Receiver :=
  match c with
  | Normal r => Normal (calm r)
  | Thrown r => Thrown (calm r)
  end.

Definition calm_turn (c : completion (Receiver * ctl)) : completion (Receiver * ctl) :=
  match c with
  | Normal rc => Normal (calm (fst rc), snd rc)
  | Thrown r => Thrown (calm r)
  end.

(** The words [.tag=1], [!re], [name=alice], a terminator, [.tag=1],
    [!done], a terminator, each behind its length. *)
Definition example_stream : buffer :=
  [6] ++ str ".tag=1" ++ [3] ++ str "!re" ++ [10] ++ str "name=alice" ++ [0]
  ++ [6] ++ str ".tag=1" ++ [5] ++ str "!done" ++ [0].

(** What the receiver with a callback for tag [1] has dispatched and holds
    after the two fragments cut at [k]. *)
Definition example_cut (k : nat) : bool :=
  match feed [take k example_stream; drop k example_stream]
          (read (str "1") (fun _ => Returns) new_Receiver) with
  | Normal r' =>
      bool_decide (dispatched (trace r')
                   = [(str "1", []); (str "1", [str "!re"; str "name=alice"])])
      && bool_decide (currentPacket r' = [str "!done"])
      && bool_decide (emitted (trace r') = [])
  | Thrown _ => false
  end.



#[global] Instance jsval_eq_dec : EqDecision jsval.
Proof. solve_decision. Defined.

#[global] Instance ISentence_eq_dec : EqDecision ISentence.
Proof. solve_decision. Defined.

#[global] Instance effect_eq_dec : EqDecision effect.
Proof. solve_decision. Defined.








(** The runs of [while (data.length > 0) { ... }]: the loop is over when
    the buffer is empty or a turn ends by [break]. *)
Inductive runs : Receiver -> buffer -> Receiver -> Prop :=
| runs_done (r : Receiver) : runs r [] r
| runs_break (r : Receiver) (data : buffer) (r' : Receiver) :
    data <> [] -> turn r data = Normal (r', Break) -> runs r data r'
| runs_turn (r : Receiver) (data : buffer) (r1 : Receiver) (data' : buffer)
    (r' : Receiver) :
    data <> [] -> turn r data = Normal (r1, Continue data') ->
    runs r1 data' r' -> runs r data r'.

(** * Properties *)

(** ** Arithmetic of [decodeLength] *)

Lemma ToInt32_small (z : Z) :
  - 2 ^ 31 <= z < 2 ^ 31 -> JS.ToInt32 (JNum z) = z.
Proof.
  intros Hz. unfold JS.ToInt32.
  rewrite Z.mod_small by lia. lia.
Qed.

Lemma shl8_small (x : Z) :
  0 <= x < 2 ^ 23 -> JS.shl (JNum x) 8 = JNum (x * 256).
Proof.
  intros Hx. unfold JS.shl.
  rewrite (ToInt32_small x) by lia.
  rewrite Z.shiftl_mul_pow2 by lia.
  change (2 ^ 8) with 256.
  rewrite ToInt32_small by lia. reflexivity.
Qed.

(** The last shift of the 5-byte class: [x] has 24 bits, and bit 23 of [x]
    becomes the sign bit. *)
Lemma shl8_wrap (x : Z) :
  0 <= x < 2 ^ 24 ->
  JS.shl (JNum x) 8 = JNum (if x <? 2 ^ 23 then x * 256 else x * 256 - 2 ^ 32).
Proof.
  intros Hx. unfold JS.shl.
  rewrite (ToInt32_small x) by lia.
  rewrite Z.shiftl_mul_pow2 by lia.
  change (2 ^ 8) with 256.
  destruct (Z.ltb_spec x (2 ^ 23)) as [Hlt | Hge].
  - rewrite ToInt32_small by lia. reflexivity.
  - unfold JS.ToInt32. f_equal.
    replace (x * 256 + 2 ^ 31) with (x * 256 - 2 ^ 31 + 1 * 2 ^ 32) by lia.
    rewrite Z.mod_add by lia.
    rewrite Z.mod_small by lia. lia.
Qed.

Lemma div_between (b k q : Z) :
  0 < k -> q * k <= b < (q + 1) * k -> b / k = q /\ b mod k = b - q * k.
Proof.
  intros Hk Hb.
  assert (Hq : b / k = q).
  { symmetry. apply (Z.div_unique b k q (b - q * k)); lia. }
  split; [exact Hq |].
  pose proof (Z.div_mod b k ltac:(lia)) as Hdm. rewrite Hq in Hdm. lia.
Qed.

(** A property of all 256 byte values, checked one by one. *)
Lemma forall_bytes (f : Z -> bool) :
  forallb f (map Z.of_nat (seq 0 256)) = true ->
  forall b, is_byte b -> f b = true.
Proof.
  intros Hall b [Hlo Hhi].
  rewrite forallb_forall in Hall. apply Hall.
  apply in_map_iff. exists (Z.to_nat b). split; [lia |].
  apply in_seq. lia.
Qed.

Lemma byte_masks (b : Z) :
  is_byte b ->
  Z.land b 128 = 128 * (b / 128) /\ Z.land b 192 = 64 * (b / 64)
  /\ Z.land b 224 = 32 * (b / 32) /\ Z.land b 240 = 16 * (b / 16)
  /\ Z.land b 63 = b mod 64 /\ Z.land b 31 = b mod 32
  /\ Z.land b 15 = b mod 16.
Proof.
  intros Hb.
  pose proof (forall_bytes masks_ok eq_refl b Hb) as H.
  unfold masks_ok in H.
  repeat (apply andb_prop in H; destruct H as [H ?]).
  repeat split; apply Z.eqb_eq; assumption.
Qed.

Lemma and_byte (b m : Z) :
  is_byte b -> 0 <= m < 256 -> JS.and (JNum b) (JNum m) = JNum (Z.land b m).
Proof.
  intros Hb Hm. unfold JS.and, is_byte in *.
  rewrite !ToInt32_small by lia. reflexivity.
Qed.

Lemma index_cons_0 (b : Z) (data : buffer) : index (b :: data) 0 = JNum b.
Proof. reflexivity. Qed.

Lemma index_cons_S (b : Z) (data : buffer) (i : nat) :
  index (b :: data) (S i) = index data i.
Proof. reflexivity. Qed.

(** What [decodeLength] returns on each class, when all bytes are there. *)
Lemma decodeLength_1 (b : Z) (rest : buffer) :
  0 <= b < 128 -> decodeLength (b :: rest) = (1%nat, JNum b).
Proof.
  intros Hb. unfold decodeLength. rewrite index_cons_0.
  rewrite and_byte by (unfold is_byte; lia).
  destruct (byte_masks b) as (H128 & _); [unfold is_byte; lia |].
  rewrite H128.
  destruct (div_between b 128 0) as [-> _]; [lia | lia |].
  cbn [JS.truthy]. class_tests. reflexivity.
Qed.

Lemma decodeLength_2 (b d1 : Z) (rest : buffer) :
  128 <= b < 192 ->
  decodeLength (b :: d1 :: rest) = (2%nat, JNum ((b - 128) * 256 + d1)).
Proof.
  intros Hb. unfold decodeLength. rewrite index_cons_S, !index_cons_0.
  rewrite !and_byte by (unfold is_byte; lia).
  destruct (byte_masks b) as (H128 & H192 & _ & _ & H63 & _); [unfold is_byte; lia |].
  rewrite H128, H192, H63.
  destruct (div_between b 128 1) as [-> _]; [lia | lia |].
  destruct (div_between b 64 2) as [-> ->]; [lia | lia |].
  cbn [JS.truthy JS.seq]. class_tests.
  rewrite shl8_small by lia. cbn [JS.add]. repeat f_equal; try lia.
Qed.

Lemma decodeLength_3 (b d1 d2 : Z) (rest : buffer) :
  192 <= b < 224 -> is_byte d1 ->
  decodeLength (b :: d1 :: d2 :: rest)
  = (3%nat, JNum (((b - 192) * 256 + d1) * 256 + d2)).
Proof.
  intros Hb Hd1. unfold is_byte in *. unfold decodeLength.
  rewrite !index_cons_S, !index_cons_0.
  rewrite !and_byte by (unfold is_byte; lia).
  destruct (byte_masks b) as (H128 & H192 & H224 & _ & _ & H31 & _); [unfold is_byte; lia |].
  rewrite H128, H192, H224, H31.
  destruct (div_between b 128 1) as [-> _]; [lia | lia |].
  destruct (div_between b 64 3) as [-> _]; [lia | lia |].
  destruct (div_between b 32 6) as [-> ->]; [lia | lia |].
  cbn [JS.truthy JS.seq]. class_tests.
  rewrite shl8_small by lia. cbn [JS.add].
  rewrite shl8_small by lia. cbn [JS.add]. repeat f_equal; try lia.
Qed.

Lemma decodeLength_4 (b d1 d2 d3 : Z) (rest : buffer) :
  224 <= b < 240 -> is_byte d1 -> is_byte d2 ->
  decodeLength (b :: d1 :: d2 :: d3 :: rest)
  = (4%nat, JNum ((((b - 224) * 256 + d1) * 256 + d2) * 256 + d3)).
Proof.
  intros Hb Hd1 Hd2. unfold is_byte in *. unfold decodeLength.
  rewrite !index_cons_S, !index_cons_0.
  rewrite !and_byte by (unfold is_byte; lia).
  destruct (byte_masks b) as (H128 & H192 & H224 & H240 & _ & _ & H15); [unfold is_byte; lia |].
  rewrite H128, H192, H224, H240, H15.
  destruct (div_between b 128 1) as [-> _]; [lia | lia |].
  destruct (div_between b 64 3) as [-> _]; [lia | lia |].
  destruct (div_between b 32 7) as [-> _]; [lia | lia |].
  destruct (div_between b 16 14) as [-> ->]; [lia | lia |].
  cbn [JS.truthy JS.seq]. class_tests.
  rewrite shl8_small by lia. cbn [JS.add].
  rewrite shl8_small by lia. cbn [JS.add].
  rewrite shl8_small by lia. cbn [JS.add]. repeat f_equal; try lia.
Qed.

(** The 5-byte class: the four bytes after the first, most significant
    first, as a *signed* 32-bit number, because the last [<<] wraps. *)
Lemma decodeLength_5 (b d1 d2 d3 d4 : Z) (rest : buffer) :
  240 <= b < 256 -> is_byte d1 -> is_byte d2 -> is_byte d3 ->
  decodeLength (b :: d1 :: d2 :: d3 :: d4 :: rest)
  = (5%nat,
     JNum (if d1 <? 128
           then ((d1 * 256 + d2) * 256 + d3) * 256 + d4
           else ((d1 * 256 + d2) * 256 + d3) * 256 + d4 - 2 ^ 32)).
Proof.
  intros Hb Hd1 Hd2 Hd3. unfold is_byte in *. unfold decodeLength.
  rewrite !index_cons_S, !index_cons_0.
  rewrite !and_byte by (unfold is_byte; lia).
  destruct (byte_masks b) as (H128 & H192 & H224 & H240 & _); [unfold is_byte; lia |].
  rewrite H128, H192, H224, H240.
  destruct (div_between b 128 1) as [-> _]; [lia | lia |].
  destruct (div_between b 64 3) as [-> _]; [lia | lia |].
  destruct (div_between b 32 7) as [-> _]; [lia | lia |].
  destruct (div_between b 16 15) as [-> _]; [lia | lia |].
  cbn [JS.truthy JS.seq]. class_tests.
  rewrite shl8_small by lia. cbn [JS.add].
  rewrite shl8_small by lia. cbn [JS.add].
  rewrite shl8_wrap by lia. cbn [JS.add].
  apply (f_equal (fun z => (5%nat, JNum z))).
  destruct (Z.ltb_spec d1 128), (Z.ltb_spec ((d1 * 256 + d2) * 256 + d3) (2 ^ 23)); lia.
Qed.

(** ** The length codec: round trip *)

Lemma byte_split (n : Z) :
  0 <= n ->
  n = n / 256 * 256 + n mod 256 /\ 0 <= n mod 256 < 256 /\ 0 <= n / 256
  /\ (forall k, 0 < k -> n < k * 256 -> n / 256 < k).
Proof.
  intros Hn.
  pose proof (Z.div_mod n 256 ltac:(lia)) as Hdm.
  pose proof (Z.mod_pos_bound n 256 ltac:(lia)) as Hm.
  repeat split; try lia.
  all: try (apply Z.div_pos; lia).
  all: try (intros k Hk Hlt; apply Z.div_lt_upper_bound; lia).
Qed.

Lemma shiftr_bytes (n : Z) :
  0 <= n ->
  Z.shiftr n 8 = n / 256 /\ Z.shiftr n 16 = n / 256 / 256
  /\ Z.shiftr n 24 = n / 256 / 256 / 256.
Proof.
  intros Hn. rewrite !Z.shiftr_div_pow2 by lia.
  rewrite !Z.div_div by lia. repeat split; reflexivity.
Qed.

Lemma land_255 (n : Z) : 0 <= n -> Z.land n 255 = n mod 256.
Proof.
  intros Hn. change 255 with (Z.ones 8).
  rewrite Z.land_ones by lia. reflexivity.
Qed.

Lemma lor_class (h : Z) :
  0 <= h ->
  (h < 64 -> Z.lor 128 h = 128 + h) /\ (h < 32 -> Z.lor 192 h = 192 + h)
  /\ (h < 16 -> Z.lor 224 h = 224 + h).
Proof.
  intros Hh.
  assert (Hcase : forall c k, (implb (h <? k) (Z.lor c h =? c + h)) = true ->
                              h < k -> Z.lor c h = c + h).
  { intros c k Himp Hlt. apply Z.ltb_lt in Hlt. rewrite Hlt in Himp.
    apply Z.eqb_eq. exact Himp. }
  destruct (Z.ltb_spec h 64) as [Hlt | Hge]; [| repeat split; lia].
  pose proof (forall_bytes class_bits_ok eq_refl h ltac:(unfold is_byte; lia)) as H.
  unfold class_bits_ok in H.
  apply andb_prop in H. destruct H as [H H3].
  apply andb_prop in H. destruct H as [H1 H2].
  repeat split; eauto.
Qed.

(** Decoding the descriptor of width [w] for [n] gives [w] and [n] back, for
    every [n] of the class that is below [2 ^ 31]. *)
Lemma decodeLength_encodeLength (w : nat) (n : Z) (rest : buffer) :
  (1 <= w <= 5)%nat -> 0 <= n < class_bound w -> n < 2 ^ 31 ->
  decodeLength (encodeLength w n ++ rest) = (w, JNum n).
Proof.
  intros Hw Hn H31.
  destruct (shiftr_bytes n) as (S8 & S16 & S24); [lia |].
  destruct (byte_split n) as (E0 & M0 & P0 & U0); [lia |].
  destruct (byte_split (n / 256)) as (E1 & M1 & P1 & U1); [lia |].
  destruct (byte_split (n / 256 / 256)) as (E2 & M2 & P2 & U2); [lia |].
  destruct (byte_split (n / 256 / 256 / 256)) as (E3 & M3 & P3 & U3); [lia |].
  destruct w as [| [| [| [| [| [| w]]]]]]; try lia;
    cbn [class_bound] in Hn; cbn [encodeLength app];
    rewrite ?S8, ?S16, ?S24, ?land_255 by lia.
  - apply decodeLength_1. lia.
  - pose proof (U0 64 ltac:(lia) ltac:(lia)) as B.
    destruct (lor_class (n / 256) P0) as (L & _). rewrite (L B).
    rewrite decodeLength_2 by lia. repeat f_equal; try lia.
  - pose proof (U0 (2 ^ 13) ltac:(lia) ltac:(lia)) as B0.
    pose proof (U1 32 ltac:(lia) ltac:(lia)) as B1.
    destruct (lor_class (n / 256 / 256) P1) as (_ & L & _). rewrite (L B1).
    rewrite decodeLength_3 by (unfold is_byte; lia). repeat f_equal; try lia.
  - pose proof (U0 (2 ^ 20) ltac:(lia) ltac:(lia)) as B0.
    pose proof (U1 (2 ^ 12) ltac:(lia) ltac:(lia)) as B1.
    pose proof (U2 16 ltac:(lia) ltac:(lia)) as B2.
    destruct (lor_class (n / 256 / 256 / 256) P2) as (_ & _ & L). rewrite (L B2).
    rewrite decodeLength_4 by (unfold is_byte; lia). repeat f_equal; try lia.
  - pose proof (U0 (2 ^ 23) ltac:(lia) ltac:(lia)) as B0.
    pose proof (U1 (2 ^ 15) ltac:(lia) ltac:(lia)) as B1.
    pose proof (U2 128 ltac:(lia) ltac:(lia)) as B2.
    rewrite (Z.mod_small (n / 256 / 256 / 256)) by lia.
    rewrite decodeLength_5 by (unfold is_byte; lia).
    destruct (Z.ltb_spec (n / 256 / 256 / 256) 128); [| lia].
    repeat f_equal; try lia.
Qed.

(** From [2 ^ 31] on, the 5-byte class decodes to [n - 2 ^ 32], a negative
    number. *)
Lemma decodeLength_encodeLength_high (n : Z) (rest : buffer) :
  2 ^ 31 <= n < 2 ^ 32 ->
  decodeLength (encodeLength 5 n ++ rest) = (5%nat, JNum (n - 2 ^ 32)).
Proof.
  intros Hn.
  destruct (shiftr_bytes n) as (S8 & S16 & S24); [lia |].
  destruct (byte_split n) as (E0 & M0 & P0 & U0); [lia |].
  destruct (byte_split (n / 256)) as (E1 & M1 & P1 & U1); [lia |].
  destruct (byte_split (n / 256 / 256)) as (E2 & M2 & P2 & U2); [lia |].
  cbn [encodeLength app]. rewrite S8, S16, S24, !land_255 by lia.
  pose proof (U0 (2 ^ 24) ltac:(lia) ltac:(lia)) as B0.
  pose proof (U1 (2 ^ 16) ltac:(lia) ltac:(lia)) as B1.
  pose proof (U2 256 ltac:(lia) ltac:(lia)) as B2.
  rewrite (Z.mod_small (n / 256 / 256 / 256)) by lia.
  rewrite decodeLength_5 by (unfold is_byte; lia).
  destruct (Z.ltb_spec (n / 256 / 256 / 256) 128); [lia |].
  repeat f_equal; try lia.
Qed.

(** C3 (the code departs from the claim): the descriptor of the 5-byte class
    for [n = 2 ^ 31], the bytes [F0 80 00 00 00], decodes to the width [5] and
    the length [- 2 ^ 31], not [2 ^ 31]: the last [<<] of [decodeLength] is a
    signed 32-bit shift. *)
Theorem decodeLength_5byte_sign_bit :
  encodeLength 5 (2 ^ 31) = [0xF0; 0x80; 0; 0; 0]
  /\ decodeLength (encodeLength 5 (2 ^ 31)) = (5%nat, JNum (- 2 ^ 31)).
Proof. split; vm_compute; reflexivity. Qed.

(** ** The length codec: a descriptor cut short *)

(** C6: on a non-empty buffer that is shorter than the width its first byte
    announces, [decodeLength] returns that width, which exceeds the length of
    the buffer, together with [NaN] for the length. *)
Theorem decodeLength_insufficient (b : Z) (rest : buffer) :
  is_byte b ->
  (length (b :: rest) < descriptor_width b)%nat ->
  decodeLength (b :: rest) = (descriptor_width b, JNaN).
Proof.
  intros Hb Hlen. unfold is_byte in Hb.
  destruct (byte_masks b Hb) as (H128 & H192 & H224 & H240 & _).
  unfold decodeLength. rewrite index_cons_0.
  rewrite !and_byte by (unfold is_byte; lia).
  rewrite H128, H192, H224, H240.
  unfold descriptor_width in *.
  destruct (Z.ltb_spec b 128); [cbn [length] in Hlen; lia |].
  destruct (div_between b 128 1) as [-> _]; [lia | lia |].
  destruct (Z.ltb_spec b 192).
  { destruct (div_between b 64 2) as [-> _]; [lia | lia |].
    cbn [JS.truthy JS.seq]. class_tests.
    destruct rest; [reflexivity | cbn [length] in Hlen; lia]. }
  destruct (div_between b 64 3) as [-> _]; [lia | lia |].
  destruct (Z.ltb_spec b 224).
  { destruct (div_between b 32 6) as [-> _]; [lia | lia |].
    cbn [JS.truthy JS.seq]. class_tests.
    destruct rest as [| d1 [| d2 rest]]; [reflexivity | reflexivity |].
    cbn [length] in Hlen; lia. }
  destruct (div_between b 32 7) as [-> _]; [lia | lia |].
  destruct (Z.ltb_spec b 240).
  { destruct (div_between b 16 14) as [-> _]; [lia | lia |].
    cbn [JS.truthy JS.seq]. class_tests.
    destruct rest as [| d1 [| d2 [| d3 rest]]]; [reflexivity .. |].
    cbn [length] in Hlen; lia. }
  destruct (div_between b 16 15) as [-> _]; [lia | lia |].
  cbn [JS.truthy JS.seq]. class_tests.
  destruct rest as [| d1 [| d2 [| d3 [| d4 rest]]]]; [reflexivity .. |].
  cbn [length] in Hlen; lia.
Qed.

Lemma decodeLength_insufficient_witness :
  decodeLength [0xE3; 0x41] = (4%nat, JNaN).
Proof.
  apply (decodeLength_insufficient 0xE3 [0x41]).
  - unfold is_byte. lia.
  - vm_compute. lia.
Defined.

(** ** The tag dispatcher *)

Lemma sendTagData_normal (tag : jsstring) (r : Receiver) :
  sendTagData tag r = Normal (cleanUp (emit_all (flush_effects tag r) r)).
Proof.
  unfold sendTagData, flush_effects, invoke, try_catch.
  destruct (tags r !! tag) as [t |]; [| reflexivity].
  destruct (callback t (currentPacket r)); reflexivity.
Qed.

Lemma trace_emit_all (es : list effect) (r : Receiver) :
  trace (emit_all es r) = trace r ++ es.
Proof.
  revert r. induction es as [| e es IH]; intros r; cbn.
  - rewrite app_nil_r. reflexivity.
  - unfold emit_all in IH. rewrite IH. cbn. rewrite <- app_assoc. reflexivity.
Qed.

(** The fields that [emit] leaves alone. *)
Lemma emit_all_fields (es : list effect) (r : Receiver) :
  tags (emit_all es r) = tags r
  /\ dataLength (emit_all es r) = dataLength r
  /\ sentencePipe (emit_all es r) = sentencePipe r
  /\ processingSentencePipe (emit_all es r) = processingSentencePipe r
  /\ currentLine (emit_all es r) = currentLine r
  /\ currentReply (emit_all es r) = currentReply r
  /\ currentTag (emit_all es r) = currentTag r
  /\ currentPacket (emit_all es r) = currentPacket r
  /\ lengthDescriptorSegment (emit_all es r) = lengthDescriptorSegment r.
Proof.
  revert r. induction es as [| e es IH]; intros r; cbn; [tauto |].
  unfold emit_all in IH. specialize (IH (emit e r)). cbn in IH. exact IH.
Qed.

Lemma sentencePipe_emit_all (es : list effect) (r : Receiver) :
  sentencePipe (emit_all es r) = sentencePipe r.
Proof. apply emit_all_fields. Qed.

Lemma processing_emit_all (es : list effect) (r : Receiver) :
  processingSentencePipe (emit_all es r) = processingSentencePipe r.
Proof. apply emit_all_fields. Qed.

Lemma dataLength_emit_all (es : list effect) (r : Receiver) :
  dataLength (emit_all es r) = dataLength r.
Proof. apply emit_all_fields. Qed.

Lemma currentPacket_emit_all (es : list effect) (r : Receiver) :
  currentPacket (emit_all es r) = currentPacket r.
Proof. apply emit_all_fields. Qed.

Create Rewrite HintDb recv.
#[export] Hint Rewrite trace_emit_all sentencePipe_emit_all processing_emit_all
  dataLength_emit_all currentPacket_emit_all : recv.

(** C9: [sendTagData] always completes normally, whether the callback
    returns, throws (the exception is caught and logged) or is not
    registered (the packet is dropped and that is logged); in the three cases
    the packet, the tag and the reply classification are reset and nothing
    else changes. *)
Theorem sendTagData_catches_and_resets (tag : jsstring) (r : Receiver) :
  exists r',
    sendTagData tag r = Normal r'
    /\ currentPacket r' = [] /\ currentTag r' = None /\ currentReply r' = []
    /\ trace r' = trace r ++
         match tags r !! tag with
         | Some t =>
             match callback t (currentPacket r) with
             | Returns => [Called tag (currentPacket r)]
             | Throws => [Called tag (currentPacket r); CallbackError tag]
             end
         | None => [UnregisteredTag tag]
         end
    /\ tags r' = tags r /\ dataLength r' = dataLength r
    /\ sentencePipe r' = sentencePipe r
    /\ processingSentencePipe r' = processingSentencePipe r
    /\ currentLine r' = currentLine r
    /\ lengthDescriptorSegment r' = lengthDescriptorSegment r.
Proof.
  eexists. split; [apply sendTagData_normal |].
  destruct (emit_all_fields (flush_effects tag r) r)
    as (Ht & Hd & Hp & Hg & Hl & _ & _ & _ & Hs).
  cbn. rewrite trace_emit_all.
  repeat split; try assumption.
  unfold flush_effects.
  destruct (tags r !! tag) as [t |]; [| reflexivity].
  destruct (callback t (currentPacket r)); reflexivity.
Qed.

(** ** The sentence pump *)

Lemma emitted_app (t1 t2 : list effect) :
  emitted (t1 ++ t2) = emitted t1 ++ emitted t2.
Proof. unfold emitted. apply omap_app. Qed.

Lemma dispatched_app (t1 t2 : list effect) :
  dispatched (t1 ++ t2) = dispatched t1 ++ dispatched t2.
Proof. unfold dispatched. apply omap_app. Qed.

Lemma emitted_flush_effects (tag : jsstring) (r : Receiver) :
  emitted (flush_effects tag r) = [].
Proof.
  unfold flush_effects. destruct (tags r !! tag) as [t |]; [| reflexivity].
  destruct (callback t (currentPacket r)); reflexivity.
Qed.

Lemma kept_refl (r : Receiver) : kept r r.
Proof. kept_now. Qed.

Lemma kept_trans (r1 r2 r3 : Receiver) : kept r1 r2 -> kept r2 r3 -> kept r1 r3.
Proof.
  unfold kept.
  intros (A1 & A2 & A3 & A4 & A5 & A6 & es1 & A7 & A8)
         (B1 & B2 & B3 & B4 & B5 & B6 & es2 & B7 & B8).
  repeat split; try congruence.
  exists (es1 ++ es2). rewrite B7, A7, app_assoc, emitted_app, A8, B8.
  split; reflexivity.
Qed.

Lemma sendTagData_kept (tag : jsstring) (r : Receiver) :
  exists r', sendTagData tag r = Normal r' /\ kept r r'.
Proof.
  eexists. split; [apply sendTagData_normal |].
  destruct (emit_all_fields (flush_effects tag r) r)
    as (Ht & Hd & Hp & Hg & Hl & _ & _ & _ & Hs).
  unfold kept. cbn. repeat split; try assumption.
  eexists. split; [apply trace_emit_all | apply emitted_flush_effects].
Qed.

Lemma flush_open_tag_kept (r : Receiver) :
  exists r', flush_open_tag r = Normal r' /\ kept r r'.
Proof.
  unfold flush_open_tag. destruct (open_tag r) as [t |].
  - apply sendTagData_kept.
  - exists r. split; [reflexivity | apply kept_refl].
Qed.

Lemma push_packet_kept (word : jsstring) (r : Receiver) : kept r (push_packet word r).
Proof. kept_now. Qed.

Lemma classify_kept (word : jsstring) (r : Receiver) :
  exists r', classify word r = Normal r' /\ kept r r'.
Proof.
  unfold classify. destruct (starts_with (str ".tag=") word).
  - eexists. split; [reflexivity | kept_now].
  - destruct (starts_with (str "!") word).
    + destruct (flush_open_tag_kept r) as (r0 & -> & K).
      eexists. split; [reflexivity |].
      eapply kept_trans; [exact K | kept_now].
    + eexists. split; [reflexivity | kept_now].
Qed.

Lemma process_drains (pipe : list ISentence) (r : Receiver) :
  exists r',
    process pipe r = Normal r'
    /\ processingSentencePipe r' = false
    /\ tags r' = tags r /\ dataLength r' = dataLength r
    /\ currentLine r' = currentLine r
    /\ lengthDescriptorSegment r' = lengthDescriptorSegment r
    /\ (exists es, trace r' = trace r ++ es)
    /\ (sentencePipe r = pipe ->
        exists done, pipe = done ++ sentencePipe r' /\ stop_reason done r').
Proof.
  revert r. induction pipe as [| line rest IH]; intros r.
  - eexists. split; [reflexivity |]. cbn.
    repeat split; try reflexivity.
    + exists []. rewrite app_nil_r. reflexivity.
    + intros Hq. exists []. split; [symmetry; exact Hq |]. left. exact Hq.
  - cbn [process].
    destruct (str_eq (sentence line) (str "!empty")) eqn:Hempty.
    { (* the [!empty] reply *)
      apply bool_decide_eq_true in Hempty.
      assert (Hstop : forall r', sentencePipe r' = rest ->
                exists done, line :: rest = done ++ sentencePipe r'
                             /\ stop_reason done r').
      { intros r' Hr'. exists [line]. rewrite Hr'. split; [reflexivity |].
        right. exists [], line. split; [reflexivity |]. left. exact Hempty. }
      destruct (open_tag (set_sentencePipe rest r)) as [t |].
      - destruct (sendTagData_kept t (push_packet (str "!done") (set_sentencePipe rest r)))
          as (r1 & -> & (K1 & K2 & K3 & K4 & K5 & K6 & es1 & K7 & _)).
        cbn in K1, K2, K3, K4, K5, K6, K7.
        eexists. split; [reflexivity |].
        repeat split; try (cbn; first [reflexivity | assumption]).
        + exists es1. exact K7.
        + intros _. apply Hstop. exact K3.
      - eexists. split; [reflexivity |].
        repeat split; try (cbn; reflexivity).
        + exists []. cbn. rewrite app_nil_r. reflexivity.
        + intros _. apply Hstop. reflexivity. }
    destruct (negb (hadMore line)
              && str_eq (currentReply (set_sentencePipe rest r)) (str "!fatal")) eqn:Hfatal.
    { (* the fatal signal *)
      apply andb_prop in Hfatal. destruct Hfatal as [Hmore _].
      apply negb_true_iff in Hmore.
      eexists. split; [reflexivity |].
      repeat split; try (cbn; reflexivity).
      - eexists. reflexivity.
      - intros _. exists [line]. split; [reflexivity |].
        right. exists [], line. split; [reflexivity |]. right.
        split; [exact Hmore |]. eexists. reflexivity. }
    (* an ordinary sentence *)
    destruct (classify_kept (sentence line) (set_sentencePipe rest r))
      as (r1 & -> & (K1 & K2 & K3 & K4 & K5 & K6 & es1 & K7 & _)).
    cbn [bind]. cbn in K1, K2, K3, K4, K5, K6, K7.
    destruct ((length rest =? 0)%nat && JS.seq (dataLength r1) (JNum 0)) eqn:Hlast.
    + (* nothing queued, nothing owed *)
      apply andb_prop in Hlast. destruct Hlast as [Hnil _].
      apply Nat.eqb_eq in Hnil. apply nil_length_inv in Hnil.
      assert (Hend : exists r2,
        (if negb (hadMore line) then flush_open_tag r1 else Normal r1) = Normal r2
        /\ kept r1 r2).
      { destruct (negb (hadMore line)).
        - apply flush_open_tag_kept.
        - exists r1. split; [reflexivity | apply kept_refl]. }
      destruct Hend as (r2 & -> & (L1 & L2 & L3 & L4 & L5 & L6 & es2 & L7 & _)).
      eexists. split; [reflexivity |].
      repeat split; try (cbn; congruence).
      * exists (es1 ++ es2). cbn. rewrite L7, K7, app_assoc. reflexivity.
      * intros _. exists [line]. cbn. split; [rewrite L3, K3; reflexivity |].
        left. cbn. rewrite L3, K3. exact Hnil.
    + (* the drain goes on *)
      destruct (IH r1) as (r2 & -> & Hg & L1 & L2 & L5 & L6 & (es2 & L7) & Hq).
      eexists. split; [reflexivity |].
      repeat split; try congruence.
      * exists (es1 ++ es2). rewrite L7, K7, app_assoc. reflexivity.
      * intros _. destruct (Hq K3) as (done & Hdone & Hwhy).
        exists (line :: done). split; [cbn; rewrite <- Hdone; reflexivity |].
        destruct Hwhy as [Hnil | (done' & l & -> & Hl)]; [left; exact Hnil |].
        right. exists (line :: done'), l. split; [reflexivity | exact Hl].
Qed.


Lemma stop_reason_short (done : list ISentence) (r' : Receiver) :
  (length (done ++ sentencePipe r') <= 1)%nat ->
  stop_reason done r' -> sentencePipe r' = [].
Proof.
  intros Hlen [Hnil | (done' & line & -> & _)]; [exact Hnil |].
  rewrite !length_app in Hlen. cbn in Hlen.
  apply nil_length_inv. lia.
Qed.

(** Queueing a sentence and running the pump leaves the framing state alone;
    from an empty queue with the guard cleared it ends with the queue empty
    and the guard cleared. *)
Lemma push_sentence_kept (s : ISentence) (r : Receiver) :
  exists r',
    push_sentence s r = Normal r'
    /\ tags r' = tags r /\ dataLength r' = dataLength r
    /\ currentLine r' = currentLine r
    /\ lengthDescriptorSegment r' = lengthDescriptorSegment r
    /\ (exists es, trace r' = trace r ++ es)
    /\ (sentencePipe r = [] -> processingSentencePipe r = false ->
        sentencePipe r' = [] /\ processingSentencePipe r' = false).
Proof.
  unfold push_sentence, processSentence. cbn.
  destruct (processingSentencePipe r) eqn:Hguard.
  - eexists. split; [reflexivity |]. cbn.
    repeat split; try reflexivity; try discriminate.
    exists []. rewrite app_nil_r. reflexivity.
  - destruct (process_drains (sentencePipe r ++ [s])
                (set_processingSentencePipe true
                   (set_sentencePipe (sentencePipe r ++ [s]) r)))
      as (r' & Hrun & Hg & Ht & Hd & Hl & Hs & He & Hq).
    exists r'. split; [exact Hrun |]. cbn in Ht, Hd, Hl, Hs, He.
    split; [exact Ht |]. split; [exact Hd |]. split; [exact Hl |].
    split; [exact Hs |]. split; [exact He |].
    intros Hnil _. split; [| exact Hg].
    destruct (Hq eq_refl) as (done & Hdone & Hwhy).
    apply (stop_reason_short done); [| exact Hwhy].
    rewrite <- Hdone, Hnil. cbn. lia.
Qed.




(** ** The chunk loop: one turn *)

Lemma gt_zero_inv (v : jsval) :
  JS.gt v (JNum 0) = true -> exists d, v = JNum d /\ 0 < d.
Proof.
  destruct v as [d | |]; cbn; try discriminate.
  intros H. exists d. split; [reflexivity | lia].
Qed.

Lemma slice_to_inside (d : Z) (data : buffer) :
  0 < d < Z.of_nat (length data) ->
  slice_to (JNum d) data = take (Z.to_nat d) data.
Proof.
  intros Hd. unfold slice_to.
  destruct (Z.ltb_spec d 0); [lia |].
  destruct (Z.leb_spec (Z.of_nat (length data)) d); [lia | reflexivity].
Qed.

Lemma slice_from_inside (d : Z) (data : buffer) :
  0 < d < Z.of_nat (length data) ->
  slice_from (JNum d) data = drop (Z.to_nat d) data.
Proof.
  intros Hd. unfold slice_from.
  destruct (Z.ltb_spec d 0); [lia |].
  destruct (Z.leb_spec (Z.of_nat (length data)) d); [lia | reflexivity].
Qed.

(** The turn that decodes a descriptor: no word is in progress. *)
Lemma turn_descriptor (r : Receiver) (data : buffer) :
  JS.gt (dataLength r) (JNum 0) = false ->
  turn r data
  = Normal (fst (null_terminator (set_dataLength (snd (decodeLength data)) r)
                   (drop (fst (decodeLength data)) data)),
            Continue (snd (null_terminator (set_dataLength (snd (decodeLength data)) r)
                             (drop (fst (decodeLength data)) data)))).
Proof.
  intros Hgt. unfold turn. rewrite Hgt.
  destruct (decodeLength data) as [w len]. cbn [fst snd].
  destruct (null_terminator (set_dataLength len r) (drop w data)). reflexivity.
Qed.

(** The turn that takes a whole chunk into the word in progress and still
    owes bytes. *)
Lemma turn_partial (r : Receiver) (data : buffer) (d : Z) :
  dataLength r = JNum d -> Z.of_nat (length data) < d -> 0 < d ->
  turn r data
  = Normal (set_currentLine (currentLine r ++ iconv_decode data)
              (set_dataLength (JNum (d - Z.of_nat (length data))) r), Break).
Proof.
  intros Hd Hlen Hpos. unfold turn, buf_length. rewrite Hd. cbn [JS.gt JS.le].
  destruct (Z.ltb_spec 0 d); [| lia].
  destruct (Z.leb_spec (Z.of_nat (length data)) d); [| lia].
  cbn. destruct (Z.eqb_spec (d - Z.of_nat (length data)) 0); [lia | reflexivity].
Qed.

(** The turn that completes the word in progress with the last bytes of the
    chunk. *)
Lemma turn_complete (r : Receiver) (data : buffer) (d : Z) :
  dataLength r = JNum d -> Z.of_nat (length data) = d -> 0 < d ->
  turn r data
  = (r' <- push_sentence
             {| sentence := currentLine r ++ iconv_decode data; hadMore := true |}
             (set_currentLine (currentLine r ++ iconv_decode data)
                (set_dataLength (JNum 0) r)) ;;
     Normal (set_currentLine [] r', Break)).
Proof.
  intros Hd Hlen Hpos. unfold turn, buf_length. rewrite Hd. cbn [JS.gt JS.le].
  destruct (Z.ltb_spec 0 d); [| lia].
  destruct (Z.leb_spec (Z.of_nat (length data)) d); [| lia].
  cbn [dataLength set_dataLength set_currentLine JS.sub JS.seq currentLine].
  replace (d - Z.of_nat (length data)) with 0 by lia.
  cbn [Z.eqb]. destruct (Z.eqb_spec (Z.of_nat (length data)) 0); [lia |].
  reflexivity.
Qed.

(** The turn that completes the word in progress and decodes the descriptor
    that follows it. *)
Lemma turn_word (r : Receiver) (data : buffer) (d : Z) :
  dataLength r = JNum d -> 0 < d < Z.of_nat (length data) ->
  let rest := drop (Z.to_nat d) data in
  let rd := null_terminator (after_word r rest) (drop (fst (decodeLength rest)) rest) in
  turn r data
  = (r' <- push_sentence
             {| sentence := currentLine r ++ iconv_decode (take (Z.to_nat d) data);
                hadMore := (0 <? length (snd rd))%nat |} (fst rd) ;;
     Normal (r', Continue (snd rd))).
Proof.
  intros Hd Hlen rest rd. unfold turn, buf_length. rewrite Hd. cbn [JS.gt JS.le].
  destruct (Z.ltb_spec 0 d); [| lia].
  destruct (Z.leb_spec (Z.of_nat (length data)) d); [lia |].
  cbn [dataLength set_currentLine currentLine].
  rewrite Hd, slice_to_inside, slice_from_inside by lia.
  fold rest. subst rd. unfold after_word.
  destruct (decodeLength rest) as [w len]. cbn [fst snd].
  destruct (length rest <? w)%nat; unfold null_terminator;
    cbn [dataLength set_dataLength set_lengthDescriptorSegment set_currentLine];
    destruct (JS.seq len (JNum 1) && buf_equals (drop w rest) nullBuffer);
    reflexivity.
Qed.

Lemma null_terminator_cases (r : Receiver) (data : buffer) :
  (dataLength r = JNum 1 /\ data = [0]
   /\ null_terminator r data = (set_dataLength (JNum 0) r, []))
  \/ ((dataLength r <> JNum 1 \/ data <> [0])
      /\ null_terminator r data = (r, data)).
Proof.
  unfold null_terminator, buf_equals, nullBuffer.
  destruct (JS.seq (dataLength r) (JNum 1)) eqn:Hone.
  - destruct (decide (data = [0])) as [-> | Hne].
    + left. destruct (dataLength r) as [z | |]; cbn in Hone; try discriminate.
      apply Z.eqb_eq in Hone. subst z. repeat split; reflexivity.
    + right. split; [right; exact Hne |].
      rewrite bool_decide_eq_false_2 by exact Hne. reflexivity.
  - right. split; [| reflexivity]. left. intros Heq. rewrite Heq in Hone.
    discriminate.
Qed.


Lemma null_terminator_length (r : Receiver) (data : buffer) :
  (length (snd (null_terminator r data)) <= length data)%nat.
Proof.
  destruct (null_terminator_cases r data) as [(_ & -> & ->) | (_ & ->)]; cbn; lia.
Qed.

Lemma decodeLength_width_pos (data : buffer) : (1 <= fst (decodeLength data))%nat.
Proof.
  unfold decodeLength.
  repeat match goal with
  | |- context [if ?c then _ else _] => destruct c
  end; cbn; lia.
Qed.

(** Every turn completes normally; one that continues has consumed a byte. *)
Lemma turn_normal (r : Receiver) (data : buffer) :
  data <> [] ->
  exists r' c,
    turn r data = Normal (r', c)
    /\ match c with
       | Continue data' => (length data' < length data)%nat
       | Break => True
       end.
Proof.
  intros Hne.
  assert (Hpos : (0 < length data)%nat) by (destruct data; [congruence | cbn; lia]).
  destruct (JS.gt (dataLength r) (JNum 0)) eqn:Hgt.
  - apply gt_zero_inv in Hgt. destruct Hgt as (d & Hd & Hd0).
    destruct (Z.lt_trichotomy (Z.of_nat (length data)) d) as [Hlt | [Heq | Hgt]].
    + rewrite (turn_partial r data d) by assumption.
      eexists _, _. split; [reflexivity | exact I].
    + rewrite (turn_complete r data d) by assumption.
      match goal with
      | |- context [push_sentence ?s ?r0] =>
          destruct (push_sentence_kept s r0) as (r' & -> & _)
      end.
      cbn [bind]. eexists _, _. split; [reflexivity | exact I].
    + pose proof (turn_word r data d Hd ltac:(lia)) as Hturn.
      cbv zeta in Hturn. rewrite Hturn.
      match goal with
      | |- context [push_sentence ?s ?r0] =>
          destruct (push_sentence_kept s r0) as (r' & -> & _)
      end.
      cbn [bind]. eexists _, _. split; [reflexivity |].
      match goal with
      | |- context [null_terminator ?a ?b] =>
          pose proof (null_terminator_length a b) as Hnt
      end.
      rewrite !length_drop in Hnt. cbv iota. lia.
  - rewrite turn_descriptor by assumption.
    eexists _, _. split; [reflexivity |].
    match goal with
    | |- context [null_terminator ?a ?b] =>
        pose proof (null_terminator_length a b) as Hnt
    end.
    pose proof (decodeLength_width_pos data).
    rewrite length_drop in Hnt. cbv iota. lia.
Qed.

(** ** The chunk loop: enough turns *)

(** [length data] turns are enough: more fuel does not change the result. *)
Lemma loop_fuel (fuel : nat) (r : Receiver) (data : buffer) :
  (length data <= fuel)%nat -> loop fuel r data = loop (length data) r data.
Proof.
  remember (length data) as n eqn:Hn.
  revert fuel r data Hn.
  induction n as [n IH] using lt_wf_ind. intros fuel r data Hn Hfuel.
  destruct data as [| b data].
  - cbn in Hn. subst n. destruct fuel; reflexivity.
  - cbn in Hn. destruct fuel as [| fuel]; [lia |]. subst n.
    cbn [loop length Nat.ltb Nat.leb].
    destruct (turn_normal r (b :: data)) as (r' & c & -> & Hc); [discriminate |].
    cbn [bind fst snd]. destruct c as [data' |]; [| reflexivity].
    cbn in Hc.
    rewrite (IH (length data') ltac:(lia) fuel r' data' eq_refl ltac:(lia)).
    rewrite (IH (length data') ltac:(lia) (length data) r' data' eq_refl ltac:(lia)).
    reflexivity.
Qed.

(** The loop, one turn at a time. *)
Lemma loop_unfold (r : Receiver) (data : buffer) :
  data <> [] ->
  loop (length data) r data
  = (rc <- turn r data ;;
     match snd rc with
     | Continue data' => loop (length data') (fst rc) data'
     | Break => Normal (fst rc)
     end).
Proof.
  intros Hne. destruct data as [| b data]; [congruence |].
  cbn [loop length Nat.ltb Nat.leb].
  destruct (turn_normal r (b :: data)) as (r' & c & -> & Hc); [discriminate |].
  cbn [bind fst snd]. destruct c as [data' |]; [| reflexivity].
  cbn in Hc. apply loop_fuel. lia.
Qed.


(** ** Descriptors and the end of the buffer *)






(** ** Splitting a chunk inside a word *)








Lemma null_terminator_longer (r : Receiver) (c : Z) (data k : buffer) :
  c :: data <> [0] -> null_terminator r ((c :: data) ++ k) = (r, (c :: data) ++ k).
Proof.
  intros Hne.
  destruct (null_terminator_cases r ((c :: data) ++ k)) as [(_ & Habs & _) | (_ & ->)];
    [| reflexivity].
  exfalso. apply Hne. cbn in Habs. injection Habs as -> Hnil.
  apply app_eq_nil in Hnil. destruct Hnil as [-> _]. reflexivity.
Qed.









(** ** Invariants of the chunk loop *)


Lemma null_terminator_idle (r : Receiver) (data : buffer) :
  idle r -> idle (fst (null_terminator r data)).
Proof.
  intros Hidle.
  destruct (null_terminator_cases r data) as [(_ & _ & ->) | (_ & ->)]; exact Hidle.
Qed.

Lemma after_word_idle (r : Receiver) (rest : buffer) : idle r -> idle (after_word r rest).
Proof.
  intros Hidle. unfold after_word.
  destruct (length rest <? fst (decodeLength rest))%nat; exact Hidle.
Qed.





(** ** The remaining-bytes counter *)







(** ** The null byte after a length of one *)

(** Queueing an attribute word when nothing is queued, no tag is open and
    the reply is not [!fatal]: the word joins the packet, nothing is
    dispatched. *)
Lemma push_plain_word (w : jsstring) (more : bool) (r : Receiver) :
  idle r -> open_tag r = None -> currentReply r <> str "!fatal" ->
  str_eq w (str "!empty") = false ->
  starts_with (str ".tag=") w = false -> starts_with (str "!") w = false ->
  exists r',
    push_sentence {| sentence := w; hadMore := more |} r = Normal r'
    /\ currentPacket r' = currentPacket r ++ [w]
    /\ trace r' = trace r.
Proof.
  intros [Hq Hguard] Hopen Hreply Hempty Htag Hbang.
  unfold push_sentence, processSentence.
  cbn [processingSentencePipe sentencePipe set_sentencePipe].
  rewrite Hguard, Hq. cbn [app process sentence hadMore]. unfold classify.
  rewrite Hempty, Htag, Hbang.
  cbn [currentReply set_sentencePipe set_processingSentencePipe].
  unfold str_eq. rewrite (bool_decide_eq_false_2 _ Hreply), andb_false_r.
  cbn [bind].
  assert (Hflush : forall x : Receiver, open_tag x = None -> flush_open_tag x = Normal x).
  { intros x Hx. unfold flush_open_tag. rewrite Hx. reflexivity. }
  match goal with
  | |- context [JS.seq ?d (JNum 0)] => destruct (JS.seq d (JNum 0))
  end; cbn [length Nat.eqb andb];
    [destruct (negb more); rewrite ?Hflush by exact Hopen |];
    (eexists; split; [reflexivity |]); split; reflexivity.
Qed.

(** The turn that completes a word and finds a descriptor of length one
    after it. *)
Lemma turn_word_then_one (r : Receiver) (d : Z) (word rest : buffer) :
  dataLength r = JNum d -> 0 < d -> Z.of_nat (length word) = d ->
  exists r',
    turn r (word ++ 1 :: 0 :: rest)
    = Normal (r', Continue (if decide (rest = []) then [] else 0 :: rest))
    /\ dataLength r' = JNum (if decide (rest = []) then 0 else 1).
Proof.
  intros Hd Hd0 Hword.
  pose proof (turn_word r (word ++ 1 :: 0 :: rest) d Hd
                ltac:(rewrite length_app; cbn; lia)) as Hturn.
  cbv zeta in Hturn. rewrite Hturn. clear Hturn.
  replace (Z.to_nat d) with (length word) by lia.
  rewrite drop_app_length, take_app_length.
  rewrite (decodeLength_1 1 (0 :: rest)) by lia. cbn [fst snd drop].
  assert (HR : dataLength (after_word r (1 :: 0 :: rest)) = JNum 1).
  { unfold after_word. rewrite (decodeLength_1 1 (0 :: rest)) by lia. reflexivity. }
  destruct (null_terminator_cases (after_word r (1 :: 0 :: rest)) (0 :: rest))
    as [(_ & Hnil & Hnt) | ([Hno | Hno] & Hnt)]; rewrite Hnt; cbn [fst snd];
    try congruence.
  - injection Hnil as ->. destruct (decide ([] = [])) as [_ | Hne]; [| congruence].
    match goal with
    | |- context [push_sentence ?s ?r0] =>
        destruct (push_sentence_kept s r0) as (r' & -> & _ & Hdl & _)
    end.
    cbn [bind]. exists r'. split; [reflexivity | exact Hdl].
  - destruct (decide (rest = [])) as [-> | _]; [congruence |].
    match goal with
    | |- context [push_sentence ?s ?r0] =>
        destruct (push_sentence_kept s r0) as (r' & -> & _ & Hdl & _)
    end.
    cbn [bind]. exists r'. split; [reflexivity |]. rewrite Hdl. exact HR.
Qed.

(** C10: after a descriptor of length one, a null byte that is all that is
    left of the chunk is consumed as a terminator: the counter goes back to
    zero and the byte is not queued as a word.  When bytes follow it in the
    chunk it stays in the buffer as the one byte owed, and the next turn
    queues it as a word of one character, which here joins the packet.  This
    holds where a descriptor is decoded between words (lines 78-84) and where
    it is decoded after a completed word (lines 60-69).  So the same three
    bytes give a packet with the word or an empty packet, depending on where
    the chunk ends. *)
Theorem null_byte_after_length_one (r : Receiver) :
  (JS.gt (dataLength r) (JNum 0) = false ->
   turn r [1; 0] = Normal (set_dataLength (JNum 0) r, Continue [])
   /\ forall rest : buffer,
        rest <> [] ->
        turn r (1 :: 0 :: rest)
        = Normal (set_dataLength (JNum 1) r, Continue (0 :: rest))
        /\ (idle r -> currentLine r = [] -> open_tag r = None ->
            currentReply r <> str "!fatal" ->
            exists r2 rest',
              turn (set_dataLength (JNum 1) r) (0 :: rest)
              = Normal (r2, Continue rest')
              /\ currentPacket r2 = currentPacket r ++ [[0]]
              /\ trace r2 = trace r))
  /\ (forall (d : Z) (word : buffer),
        dataLength r = JNum d -> 0 < d -> Z.of_nat (length word) = d ->
        (exists r',
           turn r (word ++ [1; 0]) = Normal (r', Continue [])
           /\ dataLength r' = JNum 0)
        /\ forall rest : buffer,
             rest <> [] ->
             exists r',
               turn r (word ++ 1 :: 0 :: rest) = Normal (r', Continue (0 :: rest))
               /\ dataLength r' = JNum 1)
  /\ (exists r1 r2,
        feed [[1; 0]; [0]] new_Receiver = Normal r1
        /\ processRawData [1; 0; 0] new_Receiver = Normal r2
        /\ currentPacket r1 = [] /\ currentPacket r2 = [[0]]).
Proof.
  split; [| split].
  - intros Hgt. split.
    { rewrite (turn_descriptor r [1; 0] Hgt). reflexivity. }
    intros rest Hrest. split.
    + rewrite (turn_descriptor r (1 :: 0 :: rest) Hgt).
      rewrite (decodeLength_1 1 (0 :: rest)) by lia. cbn [fst snd drop].
      destruct (null_terminator_cases (set_dataLength (JNum 1) r) (0 :: rest))
        as [(_ & Habs & _) | (_ & ->)]; [| reflexivity].
      injection Habs as ->. congruence.
    + intros Hidle Hline Hopen Hreply.
      assert (Hlen : 0 < 1 < Z.of_nat (length (0 :: rest))).
      { destruct rest; [congruence | cbn; lia]. }
      pose proof (turn_word (set_dataLength (JNum 1) r) (0 :: rest) 1 eq_refl Hlen)
        as Hturn.
      cbv zeta in Hturn. rewrite Hturn. clear Hturn.
      cbn [currentLine set_dataLength]. rewrite Hline.
      change (Z.to_nat 1) with 1%nat. cbn [drop take app iconv_decode map].
      change (win1252 0) with 0.
      match goal with
      | |- context [push_sentence {| sentence := ?w; hadMore := ?m |} ?r0] =>
          destruct (push_plain_word w m r0) as (r2 & Hpush & Hpacket & Htrace)
      end; try reflexivity.
      * apply null_terminator_idle, after_word_idle. exact Hidle.
      * match goal with
        | |- context [null_terminator ?a ?b] =>
            destruct (null_terminator_cases a b) as [(_ & _ & ->) | (_ & ->)]
        end; unfold after_word;
          destruct (length _ <? fst (decodeLength _))%nat; exact Hopen.
      * match goal with
        | |- context [null_terminator ?a ?b] =>
            destruct (null_terminator_cases a b) as [(_ & _ & ->) | (_ & ->)]
        end; unfold after_word;
          destruct (length _ <? fst (decodeLength _))%nat; exact Hreply.
      * rewrite Hpush. cbn [bind]. eexists _, _. split; [reflexivity |].
        rewrite Hpacket, Htrace.
        match goal with
        | |- context [null_terminator ?a ?b] =>
            destruct (null_terminator_cases a b) as [(_ & _ & ->) | (_ & ->)]
        end; unfold after_word;
          destruct (length _ <? fst (decodeLength _))%nat; split; reflexivity.
  - intros d word Hd Hd0 Hword. split.
    + destruct (turn_word_then_one r d word [] Hd Hd0 Hword) as (r' & Hrun & Hdl).
      destruct (decide ([] = [])) as [_ | Hne]; [| congruence].
      exists r'. split; assumption.
    + intros rest Hrest.
      destruct (turn_word_then_one r d word rest Hd Hd0 Hword) as (r' & Hrun & Hdl).
      destruct (decide (rest = [])) as [-> | _]; [congruence |].
      exists r'. split; assumption.
  - eexists _, _. split; [vm_compute; reflexivity |].
    split; [vm_compute; reflexivity |]. split; reflexivity.
Qed.

Lemma null_byte_after_length_one_witness :
  turn new_Receiver [1; 0] = Normal (set_dataLength (JNum 0) new_Receiver, Continue [])
  /\ turn new_Receiver [1; 0; 7]
     = Normal (set_dataLength (JNum 1) new_Receiver, Continue [0; 7]).
Proof.
  destruct (null_byte_after_length_one new_Receiver) as (Hdesc & _).
  destruct (Hdesc eq_refl) as (Hend & Hmore).
  split; [exact Hend |].
  apply (Hmore [7]). discriminate.
Defined.

(** ** Callbacks that throw

    A callback that throws changes nothing but the error log: the receiver
    with every callback replaced by one that returns goes through the same
    states and makes the same calls. *)

Lemma dispatched_calm (t : list effect) :
  dispatched (omap calm_effect t) = dispatched t.
Proof.
  unfold dispatched. induction t as [| e t IH]; [reflexivity |].
  destruct e; cbn; rewrite ?IH; reflexivity.
Qed.

Lemma emitted_calm (t : list effect) : emitted (omap calm_effect t) = emitted t.
Proof.
  unfold emitted. induction t as [| e t IH]; [reflexivity |].
  destruct e; cbn; rewrite ?IH; reflexivity.
Qed.

Lemma sendTagData_calm (tag : jsstring) (r : Receiver) :
  sendTagData tag (calm r) = calm_c (sendTagData tag r).
Proof.
  unfold sendTagData, invoke, try_catch. cbn [tags calm currentPacket].
  rewrite lookup_fmap.
  destruct (tags r !! tag) as [t |]; cbn [fmap option_fmap option_map hush callback bind].
  - destruct (callback t (currentPacket r)); cbn [bind calm_c]; f_equal;
      unfold calm, cleanUp, emit; cbn; rewrite ?omap_app; cbn;
      rewrite ?app_nil_r; reflexivity.
  - cbn [calm_c]. f_equal. unfold calm, cleanUp, emit; cbn.
    rewrite omap_app. reflexivity.
Qed.

Lemma flush_open_tag_calm (r : Receiver) :
  flush_open_tag (calm r) = calm_c (flush_open_tag r).
Proof.
  unfold flush_open_tag. change (open_tag (calm r)) with (open_tag r).
  destruct (open_tag r); [apply sendTagData_calm | reflexivity].
Qed.

Lemma classify_calm (word : jsstring) (r : Receiver) :
  classify word (calm r) = calm_c (classify word r).
Proof.
  unfold classify.
  destruct (starts_with (str ".tag=") word); [reflexivity |].
  destruct (starts_with (str "!") word); [| reflexivity].
  rewrite flush_open_tag_calm. destruct (flush_open_tag r); reflexivity.
Qed.

Lemma process_calm (pipe : list ISentence) (r : Receiver) :
  process pipe (calm r) = calm_c (process pipe r).
Proof.
  revert r. induction pipe as [| line rest IH]; intros r; [reflexivity |].
  cbn [process].
  change (set_sentencePipe rest (calm r)) with (calm (set_sentencePipe rest r)).
  set (r0 := set_sentencePipe rest r).
  destruct (str_eq (sentence line) (str "!empty")).
  { change (open_tag (calm r0)) with (open_tag r0).
    destruct (open_tag r0) as [t |]; [| reflexivity].
    change (push_packet (str "!done") (calm r0))
      with (calm (push_packet (str "!done") r0)).
    rewrite sendTagData_calm.
    destruct (sendTagData t (push_packet (str "!done") r0)); reflexivity. }
  change (currentReply (calm r0)) with (currentReply r0).
  destruct (negb (hadMore line) && str_eq (currentReply r0) (str "!fatal")).
  { cbn [calm_c]. f_equal. unfold calm, emit; cbn. rewrite omap_app. reflexivity. }
  rewrite classify_calm.
  destruct (classify (sentence line) r0) as [r1 | r1]; [| reflexivity].
  cbn [calm_c bind]. change (dataLength (calm r1)) with (dataLength r1).
  destruct ((length rest =? 0)%nat && JS.seq (dataLength r1) (JNum 0)).
  - destruct (negb (hadMore line)); [| reflexivity].
    rewrite flush_open_tag_calm. destruct (flush_open_tag r1); reflexivity.
  - apply IH.
Qed.

Lemma push_sentence_calm (s : ISentence) (r : Receiver) :
  push_sentence s (calm r) = calm_c (push_sentence s r).
Proof.
  unfold push_sentence, processSentence.
  cbn [processingSentencePipe set_sentencePipe calm sentencePipe].
  destruct (processingSentencePipe r); [reflexivity |].
  apply (process_calm (sentencePipe r ++ [s])
           (set_processingSentencePipe true (set_sentencePipe (sentencePipe r ++ [s]) r))).
Qed.

Lemma null_terminator_calm (r : Receiver) (data : buffer) :
  null_terminator (calm r) data
  = (calm (fst (null_terminator r data)), snd (null_terminator r data)).
Proof.
  unfold null_terminator. change (dataLength (calm r)) with (dataLength r).
  destruct (JS.seq (dataLength r) (JNum 1) && buf_equals data nullBuffer); reflexivity.
Qed.

Lemma after_word_calm (r : Receiver) (rest : buffer) :
  after_word (calm r) rest = calm (after_word r rest).
Proof.
  unfold after_word.
  destruct (length rest <? fst (decodeLength rest))%nat; reflexivity.
Qed.

Lemma turn_calm (r : Receiver) (data : buffer) :
  turn (calm r) data = calm_turn (turn r data).
Proof.
  destruct (JS.gt (dataLength r) (JNum 0)) eqn:Hgt.
  - apply gt_zero_inv in Hgt. destruct Hgt as (d & Hd & Hd0).
    destruct (Z.lt_trichotomy (Z.of_nat (length data)) d) as [Hlt | [Heq | Hgt]].
    + rewrite (turn_partial (calm r) data d Hd Hlt Hd0).
      rewrite (turn_partial r data d Hd Hlt Hd0). reflexivity.
    + rewrite (turn_complete (calm r) data d Hd Heq Hd0).
      rewrite (turn_complete r data d Hd Heq Hd0).
      change (currentLine (calm r)) with (currentLine r).
      match goal with
      | |- context [push_sentence ?s (set_currentLine ?l (set_dataLength ?v (calm r)))] =>
          change (set_currentLine l (set_dataLength v (calm r)))
            with (calm (set_currentLine l (set_dataLength v r)));
          rewrite (push_sentence_calm s);
          destruct (push_sentence s (set_currentLine l (set_dataLength v r)))
      end; reflexivity.
    + pose proof (turn_word (calm r) data d Hd ltac:(lia)) as HL.
      pose proof (turn_word r data d Hd ltac:(lia)) as HR.
      cbv zeta in HL, HR. rewrite HL, HR. clear HL HR.
      change (currentLine (calm r)) with (currentLine r).
      rewrite after_word_calm, null_terminator_calm. cbn [fst snd].
      rewrite push_sentence_calm.
      match goal with
      | |- context [calm_c ?c] => destruct c
      end; reflexivity.
  - rewrite (turn_descriptor (calm r) data Hgt), (turn_descriptor r data Hgt).
    change (set_dataLength (snd (decodeLength data)) (calm r))
      with (calm (set_dataLength (snd (decodeLength data)) r)).
    rewrite null_terminator_calm. reflexivity.
Qed.

Lemma loop_calm (fuel : nat) (r : Receiver) (data : buffer) :
  loop fuel (calm r) data = calm_c (loop fuel r data).
Proof.
  revert r data. induction fuel as [| fuel IH]; intros r data; [reflexivity |].
  cbn [loop]. destruct (0 <? length data)%nat; [| reflexivity].
  rewrite turn_calm. destruct (turn r data) as [[r' c] | r']; [| reflexivity].
  cbn [calm_turn bind fst snd]. destruct c; [apply IH | reflexivity].
Qed.

Lemma processRawData_calm (chunk : buffer) (r : Receiver) :
  processRawData chunk (calm r) = calm_c (processRawData chunk r).
Proof.
  unfold processRawData.
  change (lengthDescriptorSegment (calm r)) with (lengthDescriptorSegment r).
  destruct (lengthDescriptorSegment r) as [segment |].
  - apply (loop_calm _ (set_lengthDescriptorSegment None r)).
  - apply loop_calm.
Qed.

Lemma feed_calm (chunks : list buffer) (r : Receiver) :
  feed chunks (calm r) = calm_c (feed chunks r).
Proof.
  revert r. induction chunks as [| c chunks IH]; intros r; [reflexivity |].
  cbn [feed]. rewrite processRawData_calm.
  destruct (processRawData c r); [apply IH | reflexivity].
Qed.

(** The receiver with one callback, whatever it does, set next to the one
    whose callback returns. *)
Lemma calm_read (tag : jsstring) (cb : list jsstring -> outcome) :
  calm (read tag cb new_Receiver) = read tag (fun _ => Returns) new_Receiver.
Proof.
  unfold calm, read, set_tags, new_Receiver. cbn. f_equal.
  rewrite fmap_insert, fmap_empty. reflexivity.
Qed.

(** What a delivery dispatches does not depend on what the callback does. *)
Lemma feed_any_callback (tag : jsstring) (cb : list jsstring -> outcome)
    (chunks : list buffer) (r' : Receiver) :
  feed chunks (read tag (fun _ => Returns) new_Receiver) = Normal r' ->
  exists r'',
    feed chunks (read tag cb new_Receiver) = Normal r''
    /\ dispatched (trace r'') = dispatched (trace r')
    /\ emitted (trace r'') = emitted (trace r')
    /\ currentPacket r'' = currentPacket r'.
Proof.
  intros Hrun. rewrite <- (calm_read tag cb), feed_calm in Hrun.
  destruct (feed chunks (read tag cb new_Receiver)) as [r'' | r'']; [| discriminate].
  injection Hrun as <-. exists r''. split; [reflexivity |].
  cbn. rewrite dispatched_calm, emitted_calm. repeat split; reflexivity.
Qed.

(** ** The end-to-end example *)

Lemma example_cuts : forallb example_cut (seq 0 38) = true.
Proof. vm_compute. reflexivity. Qed.

(** C1 (a cut that contradicts the claim as it is stated): with the stream
    cut after 20 bytes, the callback of tag [1] is called with the empty
    packet, then with [!re name=alice]; it is never called with [!done]. *)
Lemma example_dispatches_empty_packet_first :
  exists r',
    feed [take 20 example_stream; drop 20 example_stream]
      (read (str "1") (fun _ => Returns) new_Receiver) = Normal r'
    /\ dispatched (trace r')
       = [(str "1", []); (str "1", [str "!re"; str "name=alice"])]
    /\ currentPacket r' = [str "!done"].
Proof.
  eexists. split; [vm_compute; reflexivity |]. split; vm_compute; reflexivity.
Qed.

(** C1, amended: the bytes of the example, cut anywhere into two fragments
    and fed to a receiver with a callback for tag [1], call that callback
    exactly twice: first with the empty packet (the reply word [!re] flushes
    the tag that [.tag=1] has just opened), then with [!re name=alice] (when
    [!done] arrives); [!done] stays in the current packet and is not
    dispatched.  Nothing else is called or emitted. *)
Theorem example_two_fragments (cb : list jsstring -> outcome) (a b : buffer) :
  a ++ b = example_stream ->
  exists r',
    feed [a; b] (read (str "1") cb new_Receiver) = Normal r'
    /\ dispatched (trace r')
       = [(str "1", []); (str "1", [str "!re"; str "name=alice"])]
    /\ emitted (trace r') = []
    /\ currentPacket r' = [str "!done"].
Proof.
  intros Hab.
  assert (Ha : a = take (length a) example_stream)
    by (rewrite <- Hab, take_app_length; reflexivity).
  assert (Hb : b = drop (length a) example_stream)
    by (rewrite <- Hab, drop_app_length; reflexivity).
  assert (Hk : In (length a) (seq 0 38)).
  { apply in_seq. apply (f_equal length) in Hab. rewrite length_app in Hab.
    change (length example_stream) with 37%nat in Hab. lia. }
  pose proof example_cuts as Hall. rewrite forallb_forall in Hall.
  specialize (Hall (length a) Hk). unfold example_cut in Hall.
  rewrite <- Ha, <- Hb in Hall.
  destruct (feed [a; b] (read (str "1") (fun _ => Returns) new_Receiver))
    as [r0 |] eqn:Hrun; [| discriminate].
  apply andb_prop in Hall. destruct Hall as [Hall He].
  apply andb_prop in Hall. destruct Hall as [Hd Hp].
  apply bool_decide_eq_true in Hd, Hp, He.
  destruct (feed_any_callback (str "1") cb [a; b] r0 Hrun)
    as (r' & Hrun' & Hd' & He' & Hp').
  exists r'. split; [exact Hrun' |]. repeat split; congruence.
Qed.

Lemma example_two_fragments_witness :
  exists r',
    feed [[6; 46; 116]; drop 3 example_stream]
      (read (str "1") (fun _ => Throws) new_Receiver) = Normal r'
    /\ dispatched (trace r')
       = [(str "1", []); (str "1", [str "!re"; str "name=alice"])]
    /\ emitted (trace r') = []
    /\ currentPacket r' = [str "!done"].
Proof.
  apply (example_two_fragments (fun _ => Throws) [6; 46; 116] (drop 3 example_stream)).
  vm_compute. reflexivity.
Defined.

(** ** The [!empty] reply *)









(** ** The loop without fuel *)

Lemma loop_runs (data : buffer) :
  forall r : Receiver,
    exists r', loop (length data) r data = Normal r' /\ runs r data r'.
Proof.
  remember (length data) as n eqn:Hn. revert data Hn.
  induction n as [n IH] using lt_wf_ind. intros data Hn r.
  destruct data as [| b data].
  - subst n. exists r. split; [reflexivity | constructor].
  - subst n. rewrite loop_unfold by discriminate.
    destruct (turn_normal r (b :: data)) as (r1 & c & Hturn & Hc); [discriminate |].
    rewrite Hturn. cbn [bind fst snd]. destruct c as [data' |].
    + destruct (IH (length data') Hc data' eq_refl r1) as (r' & Hloop & Hruns).
      exists r'. split; [exact Hloop |].
      apply (runs_turn r (b :: data) r1 data' r'); [discriminate | exact Hturn | exact Hruns].
    + exists r1. split; [reflexivity |].
      apply runs_break; [discriminate | exact Hturn].
Qed.

(** [processRawData] always returns: its loop is over after at most
    [data.length] turns, and what the model computes with that many turns is
    the run of the loop. *)
Theorem processRawData_returns (chunk : buffer) (r : Receiver) :
  exists r',
    processRawData chunk r = Normal r'
    /\ runs (set_lengthDescriptorSegment None r) (pending r chunk) r'.
Proof.
  unfold processRawData, pending.
  destruct (lengthDescriptorSegment r) as [segment |] eqn:Hseg.
  - apply loop_runs.
  - destruct (loop_runs chunk r) as (r' & Hloop & Hruns).
    exists r'. split; [exact Hloop |].
    replace (set_lengthDescriptorSegment None r) with r; [exact Hruns |].
    destruct r. cbn in Hseg. subst. reflexivity.
Qed.

(** A callback that throws changes nothing but the error log: with every
    callback replaced by one that returns, the receiver goes through the same
    states, calls the same callbacks with the same packets and emits the same
    events. *)
Theorem throwing_callbacks_only_log (chunks : list buffer) (r : Receiver) :
  feed chunks (calm r) = calm_c (feed chunks r)
  /\ forall r', feed chunks r = Normal r' ->
       exists r'', feed chunks (calm r) = Normal r''
         /\ dispatched (trace r'') = dispatched (trace r')
         /\ emitted (trace r'') = emitted (trace r')
         /\ currentPacket r'' = currentPacket r'
         /\ currentTag r'' = currentTag r'
         /\ dataLength r'' = dataLength r'.
Proof.
  split; [apply feed_calm |].
  intros r' Hrun. exists (calm r'). rewrite feed_calm, Hrun.
  split; [reflexivity |]. cbn. rewrite dispatched_calm, emitted_calm.
  repeat split; reflexivity.
Qed.

(** Between words a descriptor that is cut by the end of the chunk is
    dropped (line 78 keeps nothing), while after a completed word it is kept
    for the next chunk (line 62). *)
Lemma cut_descriptor_kept_only_after_a_word :
  exists r1 r2,
    processRawData [0x81] new_Receiver = Normal r1
    /\ lengthDescriptorSegment r1 = None
    /\ processRawData [1; 0x61; 0x81] new_Receiver = Normal r2
    /\ lengthDescriptorSegment r2 = Some [0x81].
Proof.
  eexists _, _. split; [vm_compute; reflexivity |].
  split; [reflexivity |]. split; [vm_compute; reflexivity | reflexivity].
Qed.

(** The descriptor of the 3-byte class for [70000] decodes to [70000]. *)
Lemma decodeLength_encodeLength_witness :
  decodeLength (encodeLength 3 70000 ++ [0x21]) = (3%nat, JNum 70000).
Proof.
  apply (decodeLength_encodeLength 3 70000 [0x21]).
  - lia.
  - cbn. lia.
  - lia.
Defined.
